(** * telegram-tt: payments result normalizers and the close-friends picker

    A shallow embedding of two source files:

    - [src/components/story/privacy/CloseFriends.tsx], the close-friends
      picker (module [CloseFriends]);
    - [src/api/gramjs/methods/payments.ts], the payments API methods
      (module [Payments]).

    Asynchronous calls are modelled at the point where the awaited value is
    available: every API method takes the value its [await invokeRequest(...)]
    produced ([None] for a falsy/absent result) and returns its own return
    value together with the effects it performed, in order.  The request
    objects the methods build from their arguments are modelled beside them. *)

From stdpp Require Import base option list strings gmap pretty.

(** JavaScript truthiness of an optional boolean field ([undefined] is
    falsy). *)
Definition truthy (b : option bool) : bool := default false b.

(* ====================================================================== *)
(** * The close-friends picker *)
(* ====================================================================== *)

Module CloseFriends.

(** Modelled from the spec: the [ApiUser] type (api/types) is not among the
    sources.  The component reads [isCloseFriend]; the name filter reads the
    user's names, kept here as one string. *)
Record ApiUser := {
  userName : string;
  isCloseFriend : option bool;
}.

(** [OwnProps].  [onClose] is a callback; calling it is the action
    [OnClose] below. *)
Record OwnProps := {
  isActive : option bool;
  currentUserId : string;
  usersById : gmap string ApiUser;
  contactListIds : option (list string);
}.

(** Modelled from the spec: [unique] (util/iteratees) is not among the
    sources; it de-duplicates preserving the first occurrence (the array of
    a [Set] built from the input, in insertion order).  [seen] is the set
    built so far. *)
Fixpoint uniqueFrom (seen : list string) (array : list string) : list string :=
  match array with
  | [] => []
  | x :: rest =>
      if decide (x ∈ seen) then uniqueFrom seen rest
      else x :: uniqueFrom (x :: seen) rest
  end.

Definition unique (array : list string) : list string := uniqueFrom [] array.

Section Filter.

(** The name matcher used by [filterUsersByName]: does the user match the
    (non-empty) query?  It is a parameter of the development. *)
Variable searchMatch : string → ApiUser → bool.

(** Does [filterUsersByName] keep this id? *)
Definition keepsUser (usersById : gmap string ApiUser) (query : string)
    (id : string) : bool :=
  match usersById !! id with
  | Some user => searchMatch query user
  | None => false
  end.

(** Modelled from the spec: [filterUsersByName] (global/helpers) is not among
    the sources.  The filter text is intersected against names; with no filter
    text every id is kept. *)
Definition filterUsersByName (userIds : list string)
    (usersById : gmap string ApiUser) (query : string) : list string :=
  if String.eqb query "" then userIds
  else filter (λ id, keepsUser usersById query id = true) userIds.

(** Is the id kept under this filter text? *)
Definition passesFilter (usersById : gmap string ApiUser) (query : string)
    (id : string) : bool :=
  String.eqb query "" || keepsUser usersById query id.

(** [closeFriendIds], CloseFriends.tsx lines 39-41. *)
Definition closeFriendIds (contactListIds : option (list string))
    (usersById : gmap string ApiUser) : list string :=
  filter (λ userId, truthy (usersById !! userId ≫= isCloseFriend) = true)
         (default [] contactListIds).

(** [displayedIds], CloseFriends.tsx lines 43-46. *)
Definition displayedIds (closeFriendIds : list string)
    (contactListIds : option (list string)) (currentUserId : string)
    (searchQuery : string) (usersById : gmap string ApiUser) : list string :=
  let contactIds := filter (λ id, id ≠ currentUserId) (default [] contactListIds) in
  unique (filterUsersByName (closeFriendIds ++ contactIds) usersById searchQuery).

(** ** Component state *)

(** The three [useState] cells and the reference kept by
    [useEffectWithPrevDeps]. *)
Record State := {
  searchQuery : string;
  isSubmitShown : bool;
  newSelectedContactIds : list string;
  (** the dependencies [isActive, closeFriendIds] seen by the last run of the
      effect; [None] before the first render *)
  prevDeps : option (option bool * list string);
}.

Definition initialState : State :=
  {| searchQuery := ""; isSubmitShown := false; newSelectedContactIds := [];
     prevDeps := None |}.

(** What the component does to the outside. *)
Inductive Action :=
  | SaveCloseFriends (userIds : list string)
  | OnClose.

(** What [PeerPicker] and the submit button are given. *)
Record View := {
  itemIds : list string;
  selectedIds : list string;
  filterValue : string;
  isShown : bool;
}.

(** [prevIsActive] as the effect callback destructures it from the previous
    dependencies ([undefined] before the first run). *)
Definition prevIsActive (st : State) : option bool :=
  match prevDeps st with
  | Some (wasActive, _) => wasActive
  | None => None
  end.

(** Do the effect's dependencies differ from the previous render's?
    [isActive] is compared by value; [closeFriendIds] is an array compared by
    identity, and [sameArray = false] says this render's memo produced a new
    array (a new array is the only way its contents can differ). *)
Definition depsChanged (props : OwnProps) (sameArray : bool) (st : State) : bool :=
  match prevDeps st with
  | None => true
  | Some (wasActive, ids) =>
      negb (bool_decide (wasActive = isActive props))
      || negb sameArray
      || negb (bool_decide (ids = closeFriendIds (contactListIds props) (usersById props)))
  end.

(** The effect callback, CloseFriends.tsx lines 48-53. *)
Definition activationEffect (props : OwnProps) (st : State) : State :=
  if negb (truthy (prevIsActive st)) && truthy (isActive props) then
    {| searchQuery := searchQuery st;
       isSubmitShown := false;
       newSelectedContactIds := closeFriendIds (contactListIds props) (usersById props);
       prevDeps := prevDeps st |}
  else st.

(** Modelled from the spec: [useEffectWithPrevDeps] (hooks) is not among the
    sources.  When a dependency changed, the callback runs with the previous
    dependencies, and the current ones are remembered for the next run. *)
Definition render (props : OwnProps) (sameArray : bool) (st : State) : State :=
  if depsChanged props sameArray st then
    let st' := activationEffect props st in
    {| searchQuery := searchQuery st';
       isSubmitShown := isSubmitShown st';
       newSelectedContactIds := newSelectedContactIds st';
       prevDeps := Some (isActive props,
                         closeFriendIds (contactListIds props) (usersById props)) |}
  else st.

(** The rendered output, CloseFriends.tsx lines 65-92. *)
Definition view (props : OwnProps) (st : State) : View :=
  {| itemIds := displayedIds (closeFriendIds (contactListIds props) (usersById props))
                  (contactListIds props) (currentUserId props)
                  (searchQuery st) (usersById props);
     selectedIds := newSelectedContactIds st;
     filterValue := searchQuery st;
     isShown := isSubmitShown st |}.

(** [onFilterChange={setSearchQuery}], line 76. *)
Definition setSearchQuery (text : string) (st : State) : State :=
  {| searchQuery := text;
     isSubmitShown := isSubmitShown st;
     newSelectedContactIds := newSelectedContactIds st;
     prevDeps := prevDeps st |}.

(** [handleSelectedContactIdsChange], lines 55-58. *)
Definition handleSelectedContactIdsChange (value : list string) (st : State) : State :=
  {| searchQuery := searchQuery st;
     isSubmitShown := true;
     newSelectedContactIds := value;
     prevDeps := prevDeps st |}.

(** [handleSubmit], lines 60-63: the actions performed, in order. *)
Definition handleSubmit (st : State) : list Action :=
  [SaveCloseFriends (newSelectedContactIds st); OnClose].

(** ** The component as a transition system *)

Inductive Event :=
  | Render (props : OwnProps) (sameArray : bool)
  | FilterChange (text : string)
  | SelectedIdsChange (value : list string)
  | Submit.

Definition step (st : State) (ev : Event) : State :=
  match ev with
  | Render props sameArray => render props sameArray st
  | FilterChange text => setSearchQuery text st
  | SelectedIdsChange value => handleSelectedContactIdsChange value st
  | Submit => st
  end.

Definition emitted (st : State) (ev : Event) : list Action :=
  match ev with
  | Submit => handleSubmit st
  | _ => []
  end.

(** The state after a history of events, oldest first. *)
Definition run (evs : list Event) : State := foldl step initialState evs.

(** The actions of a history of events from a state, oldest first. *)
Fixpoint actions (st : State) (evs : list Event) : list Action :=
  match evs with
  | [] => []
  | ev :: evs => emitted st ev ++ actions (step st ev) evs
  end.

(** Was the container active at the latest render of the history? *)
Definition lastActive (evs : list Event) : bool :=
  foldl (λ active ev,
           match ev with
           | Render props _ => truthy (isActive props)
           | _ => active
           end) false evs.

End Filter.

(** The props with the container active. *)
Definition activated (props : OwnProps) : OwnProps :=
  {| isActive := Some true;
     currentUserId := currentUserId props;
     usersById := usersById props;
     contactListIds := contactListIds props |}.

(** The filter text set latest in the history (none set: the initial, empty
    text). *)
Definition lastFilterText (evs : list Event) : string :=
  foldl (λ text ev,
           match ev with
           | FilterChange newText => newText
           | _ => text
           end) "" evs.

(** Does the event, coming after the history, take the container from
    inactive to active?  Only a render with [isActive] set does, and only
    when the latest render before it (if any) had it unset. *)
Definition activates (evs : list Event) (ev : Event) : bool :=
  match ev with
  | Render props _ => negb (lastActive evs) && truthy (isActive props)
  | _ => false
  end.

(** The history has a selection change after which no event took the
    container from inactive to active. *)
Definition changedAndNotActivatedSince (evs : list Event) : Prop :=
  ∃ before value after,
    evs = before ++ SelectedIdsChange value :: after
    ∧ ∀ between ev rest,
        after = between ++ ev :: rest →
        activates (before ++ SelectedIdsChange value :: between) ev = false.

Definition isSubmit (ev : Event) : bool :=
  match ev with
  | Submit => true
  | _ => false
  end.

(** How often the history submits. *)
Definition submits (evs : list Event) : nat :=
  length (filter (λ ev, isSubmit ev = true) evs).

(** A concrete name matcher: the query occurs in the user's name. *)
Definition nameContains (query : string) (user : ApiUser) : bool :=
  bool_decide (is_Some (String.index 0 query (userName user))).

End CloseFriends.

(* ====================================================================== *)
(** * The payments API methods *)
(* ====================================================================== *)

Module Payments.

(** The update published on the notification channel by [sendApiUpdate]:
    [{ '@type': 'updatePaymentVerificationNeeded', url }]. *)
Inductive ApiUpdate :=
  | UpdatePaymentVerificationNeeded (url : string).

Section Methods.

(** ** What the module imports

    The GramJs payload types and the builders of [apiBuilders/payments] are
    not among the sources; the methods are parametric in them. *)

(** the [updates] carried by a payment result, a web document, and the
    fields of a document other than its id *)
Variables Updates WebDocument DocumentData : Type.
(** [DEBUG] of [config] *)
Variable DEBUG : bool.

Variables ShippingOption ApiShippingOptions : Type.
Variable buildShippingOptions : option (list ShippingOption) → ApiShippingOptions.

Variables PaymentFormData ApiPaymentForm ApiInvoice : Type.
Variables PaymentReceipt ApiReceipt : Type.
Variables PremiumPromoData ApiPremiumPromo : Type.
Variables Bytes TmpPasswordError : Type.
Variable serializeBytes : Bytes → string.
Variables MyBoost ApiMyBoost : Type.
Variable buildApiMyBoost : MyBoost → ApiMyBoost.
Variables BoostsStatus ApiBoostsStatus : Type.
Variable buildApiBoostsStatus : BoostsStatus → ApiBoostsStatus.
Variables Boost ApiBoost : Type.
Variable buildApiBoost : Boost → ApiBoost.
Variables GiveawayInfo ApiGiveawayInfo : Type.
Variable buildApiGiveawayInfo : GiveawayInfo → ApiGiveawayInfo.
Variables CheckedGiftCode ApiCheckedGiftCode : Type.
Variable buildApiCheckedGiftCode : CheckedGiftCode → ApiCheckedGiftCode.
Variables PremiumGiftCodeOption ApiPremiumGiftCodeOption : Type.
Variable buildApiPremiumGiftCodeOption : PremiumGiftCodeOption → ApiPremiumGiftCodeOption.
Variables StarsGiftOption ApiStarsGiftOption : Type.
Variable buildApiStarsGiftOptions : StarsGiftOption → ApiStarsGiftOption.
Variables StarsGiveawayOption ApiStarsGiveawayOption : Type.
Variable buildApiStarsGiveawayOptions : StarsGiveawayOption → ApiStarsGiveawayOption.
Variables StarsTopupOption ApiStarsTopupOption : Type.
Variable buildApiStarTopupOption : StarsTopupOption → ApiStarsTopupOption.
Variables StarsTransaction ApiStarsTransaction : Type.
Variable buildApiStarsTransaction : StarsTransaction → ApiStarsTransaction.
(** a platform number and [toJSNumber] of a big integer *)
Variable JsNumber : Type.
Variable toJSNumber : Z → JsNumber.

(** ** Remote payloads *)

(** [payments.ValidatedRequestedInfo] *)
Record ValidatedRequestedInfo := {
  id : option string;
  shippingOptions : option (list ShippingOption);
}.

(** [payments.TypePaymentResult] *)
Inductive TypePaymentResult :=
  | PaymentResult (updates : Updates)
  | PaymentVerificationNeeded (url : string).

(** [payments.PaymentForm], of which the method reads [photo] *)
Record PaymentForm := {
  photo : option WebDocument;
  paymentFormData : PaymentFormData;
}.

(** [TypeDocument] *)
Inductive TypeDocument :=
  | Document (documentId : Z) (data : DocumentData)
  | DocumentEmpty (documentId : Z).

(** [help.PremiumPromo], of which the method reads [videos] *)
Record PremiumPromo := {
  videos : list TypeDocument;
  premiumPromoData : PremiumPromoData;
}.

(** what [getTemporaryPaymentPassword] resolves to, when not [undefined] *)
Inductive TmpPasswordResult :=
  | TmpPasswordFailed (error : TmpPasswordError)
  | TmpPassword (tmpPassword : Bytes) (validUntil : Z).

(** [premium.MyBoosts] *)
Record MyBoosts := {
  myBoosts : list MyBoost;
}.

(** [premium.BoostsList] *)
Record BoostsList := {
  count : Z;
  boosts : list Boost;
  boostsNextOffset : option string;
}.

(** [payments.StarsStatus] *)
Record StarsStatus := {
  starsNextOffset : option string;
  starsHistory : option (list StarsTransaction);
  balance : Z;
}.

Variable buildApiPaymentForm : PaymentForm → ApiPaymentForm.
Variable buildApiInvoiceFromForm : PaymentForm → ApiInvoice.
Variable buildApiReceipt : PaymentReceipt → ApiReceipt.
Variable buildApiPremiumPromo : PremiumPromo → ApiPremiumPromo.

(** ** Effects *)

Inductive Effect :=
  (** [sendApiUpdate(update)] *)
  | SendApiUpdate (update : ApiUpdate)
  (** [handleGramJsUpdate(updates)] *)
  | HandleGramJsUpdate (updates : Updates)
  (** [addWebDocumentToLocalDb(photo)] *)
  | AddWebDocumentToLocalDb (document : WebDocument)
  (** [localDb.documents[key] = video] *)
  | SetLocalDbDocument (key : string) (video : TypeDocument)
  (** [console.warn(message)] *)
  | ConsoleWarn (message : string).

(** A computation: its value and the effects it performed, oldest first. *)
Definition Eff (A : Type) : Type := (A * list Effect)%type.

#[local] Instance Eff_ret : MRet Eff := λ A x, (x, []).
#[local] Instance Eff_bind : MBind Eff :=
  λ A B k m, let '(y, later) := k m.1 in (y, m.2 ++ later).

Definition perform (e : Effect) : Eff unit := (tt, [e]).

Definition sendApiUpdate (update : ApiUpdate) : Eff unit :=
  perform (SendApiUpdate update).
Definition handleGramJsUpdate (updates : Updates) : Eff unit :=
  perform (HandleGramJsUpdate updates).
Definition addWebDocumentToLocalDb (document : WebDocument) : Eff unit :=
  perform (AddWebDocumentToLocalDb document).
Definition consoleWarn (message : string) : Eff unit :=
  perform (ConsoleWarn message).

(** The notifications published by a run. *)
Definition published (es : list Effect) : list ApiUpdate :=
  omap (λ e, match e with SendApiUpdate u => Some u | _ => None end) es.

(** The update batches handed to [handleGramJsUpdate] by a run. *)
Definition handled (es : list Effect) : list Updates :=
  omap (λ e, match e with HandleGramJsUpdate u => Some u | _ => None end) es.

(** Does the effect register an object into the local database? *)
Definition isRegistration (e : Effect) : bool :=
  match e with
  | AddWebDocumentToLocalDb _ | SetLocalDbDocument _ _ => true
  | _ => false
  end.

(** The registrations into the local database made by a run. *)
Definition registered (es : list Effect) : list Effect :=
  filter (λ e, isRegistration e = true) es.

(** The diagnostics recorded by a run. *)
Definition warned (es : list Effect) : list string :=
  omap (λ e, match e with ConsoleWarn m => Some m | _ => None end) es.

(** ** Results of the methods *)

Record ValidatedInfo := {
  validatedId : string;
  validatedShippingOptions : ApiShippingOptions;
}.

Record PaymentFormResult := {
  form : ApiPaymentForm;
  invoice : ApiInvoice;
}.

Record TemporaryPassword := {
  value : string;
  passwordValidUntil : Z;
}.

Record BoostListResult := {
  resultCount : Z;
  boostList : list ApiBoost;
  nextOffset : option string;
}.

Record StarsResult := {
  starsResultNextOffset : option string;
  history : option (list ApiStarsTransaction);
  resultBalance : JsNumber;
}.

(** ** The methods *)

(** [validateRequestedInfo], payments.ts lines 40-70 *)
Definition validateRequestedInfo (result : option ValidatedRequestedInfo)
    : Eff (option ValidatedInfo) :=
  match result with
  | None => mret None
  | Some result =>
      match id result with
      | None => mret None
      | Some theId =>
          if String.eqb theId "" then mret None
          else mret (Some {| validatedId := theId;
                             validatedShippingOptions :=
                               buildShippingOptions (shippingOptions result) |})
      end
  end.

(** [sendPaymentForm], payments.ts lines 72-123 *)
Definition sendPaymentForm (result : option TypePaymentResult)
    : Eff (option bool) :=
  match result with
  | None => mret (Some false)
  | Some (PaymentVerificationNeeded url) =>
      sendApiUpdate (UpdatePaymentVerificationNeeded url);;
      mret None
  | Some (PaymentResult updates) =>
      handleGramJsUpdate updates;;
      mret (Some true)
  end.

(** [sendStarPaymentForm], payments.ts lines 125-151 *)
Definition sendStarPaymentForm (result : option TypePaymentResult)
    : Eff (option bool) :=
  match result with
  | None => mret (Some false)
  | Some (PaymentVerificationNeeded _) =>
      (if DEBUG then consoleWarn "Unexpected PaymentVerificationNeeded in sendStarsForm"
       else mret tt);;
      mret None
  | Some (PaymentResult updates) =>
      handleGramJsUpdate updates;;
      mret (Some true)
  end.

(** [getPaymentForm], payments.ts lines 153-171 *)
Definition getPaymentForm (result : option PaymentForm)
    : Eff (option PaymentFormResult) :=
  match result with
  | None => mret None
  | Some result =>
      match photo result with
      | Some thePhoto => addWebDocumentToLocalDb thePhoto
      | None => mret tt
      end;;
      mret (Some {| form := buildApiPaymentForm result;
                    invoice := buildApiInvoiceFromForm result |})
  end.

(** [getReceipt], payments.ts lines 173-186 *)
Definition getReceipt (result : option PaymentReceipt) : Eff (option ApiReceipt) :=
  match result with
  | None => mret None
  | Some result => mret (Some (buildApiReceipt result))
  end.

(** The body of the [forEach] in [fetchPremiumPromo], lines 192-196. *)
Definition registerVideo (video : TypeDocument) : Eff unit :=
  match video with
  | Document documentId _ => perform (SetLocalDbDocument (pretty documentId) video)
  | DocumentEmpty _ => mret tt
  end.

Fixpoint forEach {A} (callback : A → Eff unit) (array : list A) : Eff unit :=
  match array with
  | [] => mret tt
  | x :: rest => callback x;; forEach callback rest
  end.

(** [fetchPremiumPromo], payments.ts lines 188-201 *)
Definition fetchPremiumPromo (result : option PremiumPromo)
    : Eff (option ApiPremiumPromo) :=
  match result with
  | None => mret None
  | Some result =>
      forEach registerVideo (videos result);;
      mret (Some (buildApiPremiumPromo result))
  end.

(** [fetchTemporaryPaymentPassword], payments.ts lines 203-218; the awaited
    value is that of [getTemporaryPaymentPassword]. *)
Definition fetchTemporaryPaymentPassword (result : option TmpPasswordResult)
    : Eff (option (TmpPasswordError + TemporaryPassword)) :=
  match result with
  | None => mret None
  | Some (TmpPasswordFailed error) => mret (Some (inl error))
  | Some (TmpPassword tmpPassword validUntil) =>
      mret (Some (inr {| value := serializeBytes tmpPassword;
                         passwordValidUntil := validUntil |}))
  end.

(** [fetchMyBoosts], payments.ts lines 220-230 *)
Definition fetchMyBoosts (result : option MyBoosts) : Eff (option (list ApiMyBoost)) :=
  match result with
  | None => mret None
  | Some result => mret (Some (map buildApiMyBoost (myBoosts result)))
  end.

(** [applyBoost], payments.ts lines 232-251 *)
Definition applyBoost (result : option MyBoosts) : Eff (option (list ApiMyBoost)) :=
  match result with
  | None => mret None
  | Some result => mret (Some (map buildApiMyBoost (myBoosts result)))
  end.

(** [fetchBoostStatus], payments.ts lines 253-267 *)
Definition fetchBoostStatus (result : option BoostsStatus)
    : Eff (option ApiBoostsStatus) :=
  match result with
  | None => mret None
  | Some result => mret (Some (buildApiBoostsStatus result))
  end.

(** [fetchBoostList], payments.ts lines 269-298 *)
Definition fetchBoostList (result : option BoostsList) : Eff (option BoostListResult) :=
  match result with
  | None => mret None
  | Some result =>
      mret (Some {| resultCount := count result;
                    boostList := map buildApiBoost (boosts result);
                    nextOffset := boostsNextOffset result |})
  end.

(** [fetchGiveawayInfo], payments.ts lines 300-317 *)
Definition fetchGiveawayInfo (result : option GiveawayInfo)
    : Eff (option ApiGiveawayInfo) :=
  match result with
  | None => mret None
  | Some result => mret (Some (buildApiGiveawayInfo result))
  end.

(** [checkGiftCode], payments.ts lines 319-335 *)
Definition checkGiftCode (result : option CheckedGiftCode)
    : Eff (option ApiCheckedGiftCode) :=
  match result with
  | None => mret None
  | Some result => mret (Some (buildApiCheckedGiftCode result))
  end.

(** [applyGiftCode], payments.ts lines 337-347: the value of the request,
    made with [shouldReturnTrue], is returned as it is ([Some tt] stands for
    [true]). *)
Definition applyGiftCode (result : option unit) : Eff (option unit) :=
  mret result.

(** [getPremiumGiftCodeOptions], payments.ts lines 349-363 *)
Definition getPremiumGiftCodeOptions (result : option (list PremiumGiftCodeOption))
    : Eff (option (list ApiPremiumGiftCodeOption)) :=
  match result with
  | None => mret None
  | Some result => mret (Some (map buildApiPremiumGiftCodeOption result))
  end.

(** [getStarsGiftOptions], payments.ts lines 365-379 *)
Definition getStarsGiftOptions (result : option (list StarsGiftOption))
    : Eff (option (list ApiStarsGiftOption)) :=
  match result with
  | None => mret None
  | Some result => mret (Some (map buildApiStarsGiftOptions result))
  end.

(** [fetchStarsGiveawayOptions], payments.ts lines 381-389 *)
Definition fetchStarsGiveawayOptions (result : option (list StarsGiveawayOption))
    : Eff (option (list ApiStarsGiveawayOption)) :=
  match result with
  | None => mret None
  | Some result => mret (Some (map buildApiStarsGiveawayOptions result))
  end.

(** [launchPrepaidGiveaway], payments.ts lines 391-407: as [applyGiftCode]. *)
Definition launchPrepaidGiveaway (result : option unit) : Eff (option unit) :=
  mret result.

(** The object built by [fetchStarsStatus] and [fetchStarsTransactions]. *)
Definition buildStarsResult (result : StarsStatus) : StarsResult :=
  {| starsResultNextOffset := starsNextOffset result;
     history := map buildApiStarsTransaction <$> starsHistory result;
     resultBalance := toJSNumber (balance result) |}.

(** [fetchStarsStatus], payments.ts lines 409-423 *)
Definition fetchStarsStatus (result : option StarsStatus) : Eff (option StarsResult) :=
  match result with
  | None => mret None
  | Some result => mret (Some (buildStarsResult result))
  end.

(** [fetchStarsTransactions], payments.ts lines 425-453 *)
Definition fetchStarsTransactions (result : option StarsStatus)
    : Eff (option StarsResult) :=
  match result with
  | None => mret None
  | Some result => mret (Some (buildStarsResult result))
  end.

(** [result?.history?.[0]] *)
Definition firstTransaction (result : option StarsStatus) : option StarsTransaction :=
  match result with
  | None => None
  | Some result =>
      match starsHistory result with
      | None => None
      | Some transactions => head transactions
      end
  end.

(** [fetchStarsTransactionById], payments.ts lines 455-476 *)
Definition fetchStarsTransactionById (result : option StarsStatus)
    : Eff (option ApiStarsTransaction) :=
  match firstTransaction result with
  | None => mret None
  | Some transaction => mret (Some (buildApiStarsTransaction transaction))
  end.

(** [fetchStarsTopupOptions], payments.ts lines 478-486 *)
Definition fetchStarsTopupOptions (result : option (list StarsTopupOption))
    : Eff (option (list ApiStarsTopupOption)) :=
  match result with
  | None => mret None
  | Some result => mret (Some (map buildApiStarTopupOption result))
  end.

(** ** The local database *)

(** [localDb.documents] after the effects of a run: every
    [localDb.documents[key] = video] overwrites the entry of its key. *)
Definition documentsAfter (es : list Effect) (documents : gmap string TypeDocument)
    : gmap string TypeDocument :=
  foldl (λ documents e,
           match e with
           | SetLocalDbDocument key video => <[key:=video]> documents
           | _ => documents
           end) documents es.

(** The registration [fetchPremiumPromo] makes for one video, if any. *)
Definition videoRegistration (video : TypeDocument) : option Effect :=
  match video with
  | Document documentId _ => Some (SetLocalDbDocument (pretty documentId) video)
  | DocumentEmpty _ => None
  end.

(** ** Requests

    What the methods put into the request objects they send.  The builders
    of [gramjsBuilders] and the helpers of [helpers] are parameters. *)

Variables ApiRequestInputInvoice InputInvoice : Type.
Variable buildInputInvoice : ApiRequestInputInvoice → InputInvoice.
Variables RequestedInfo ShippingInfo : Type.
Variable buildShippingInfo : RequestedInfo → ShippingInfo.
Variable deserializeBytes : string → Bytes.
(** [credentials.data] and [JSON.stringify] of it *)
Variable CredentialsData : Type.
Variable stringify : CredentialsData → string.
(** [BigInt] of a string: the integer it denotes, [None] when [BigInt]
    throws because the string denotes none *)
Variable bigInt : string → option Z.
Variable InputPeer : Type.
Variable buildInputPeer : string → option string → InputPeer.

(** JavaScript truthiness of an optional string ([undefined] and the empty
    string are falsy). *)
Definition truthyString (s : option string) : bool :=
  match s with
  | Some s => negb (String.eqb s "")
  | None => false
  end.

(** [flag || undefined] *)
Definition orUndefined (flag : option bool) : option bool :=
  if truthy flag then flag else None.

(** The [chat] argument, of which the methods read [id] and [accessHash]. *)
Record ApiChat := {
  chatId : string;
  accessHash : option string;
}.

(** [payments.ValidateRequestedInfo] *)
Record ValidateRequestedInfoRequest := {
  validateInvoice : InputInvoice;
  save : option bool;
  info : ShippingInfo;
}.

(** The request of [validateRequestedInfo], payments.ts lines 52-56 *)
Definition validateRequestedInfoRequest (inputInvoice : ApiRequestInputInvoice)
    (requestInfo : RequestedInfo) (shouldSave : option bool)
    : ValidateRequestedInfoRequest :=
  {| validateInvoice := buildInputInvoice inputInvoice;
     save := orUndefined shouldSave;
     info := buildShippingInfo requestInfo |}.

(** The [credentials] argument of [sendPaymentForm] *)
Record ApiCredentials := {
  credentialsSave : option bool;
  credentialsData : CredentialsData;
}.

(** [TypeInputPaymentCredentials]: [InputPaymentCredentialsSaved] and
    [InputPaymentCredentials] (whose [data] is a [DataJSON]) *)
Inductive TypeInputPaymentCredentials :=
  | InputPaymentCredentialsSaved (savedId : string) (tmpPassword : Bytes)
  | InputPaymentCredentials (saveFlag : option bool) (dataJSON : string).

(** A JavaScript number, as far as the methods tell numbers apart: an
    integer (both zeros are [IntegerValue 0]), a finite number that is not an
    integer, an infinity, or [NaN]. *)
Inductive JsNumberValue :=
  | IntegerValue (z : Z)
  | FractionValue
  | InfiniteValue
  | NaNValue.

(** JavaScript truthiness of a number: zero and [NaN] are falsy. *)
Definition truthyNumber (n : JsNumberValue) : bool :=
  match n with
  | IntegerValue z => negb (Z.eqb z 0)
  | FractionValue | InfiniteValue => true
  | NaNValue => false
  end.

(** [BigInt] of a number: [None] when it throws, which it does for a number
    that is not an integer. *)
Definition bigIntOfNumber (n : JsNumberValue) : option Z :=
  match n with
  | IntegerValue z => Some z
  | FractionValue | InfiniteValue | NaNValue => None
  end.

(** The arguments of [sendPaymentForm], payments.ts lines 72-90 *)
Record SendPaymentFormArgs := {
  inputInvoice : ApiRequestInputInvoice;
  formId : string;
  credentials : ApiCredentials;
  requestedInfoId : option string;
  shippingOptionId : option string;
  savedCredentialId : option string;
  temporaryPassword : option string;
  tipAmount : option JsNumberValue;
}.

(** [payments.SendPaymentForm] *)
Record SendPaymentFormRequest := {
  sentFormId : Z;
  sentInvoice : InputInvoice;
  sentRequestedInfoId : option string;
  sentShippingOptionId : option string;
  sentCredentials : TypeInputPaymentCredentials;
  sentTipAmount : option Z;
}.

(** [inputCredentials], payments.ts lines 91-99 *)
Definition inputCredentials (args : SendPaymentFormArgs) : TypeInputPaymentCredentials :=
  let fresh :=
    InputPaymentCredentials (credentialsSave (credentials args))
      (stringify (credentialsData (credentials args))) in
  match temporaryPassword args, savedCredentialId args with
  | Some password, Some savedId =>
      if negb (String.eqb password "") && negb (String.eqb savedId "") then
        InputPaymentCredentialsSaved savedId (deserializeBytes password)
      else fresh
  | _, _ => fresh
  end.

(** [...(tipAmount && { tipAmount: BigInt(tipAmount) })], line 106: the tip
    put into the request, if any; the outer [None] when [BigInt] throws. *)
Definition tipToSend (tip : option JsNumberValue) : option (option Z) :=
  match tip with
  | None => Some None
  | Some n => if truthyNumber n then Some <$> bigIntOfNumber n else Some None
  end.

(** The request of [sendPaymentForm], payments.ts lines 100-107; [None] when
    building it throws, so that no request is sent. *)
Definition sendPaymentFormRequest (args : SendPaymentFormArgs)
    : option SendPaymentFormRequest :=
  match bigInt (formId args), tipToSend (tipAmount args) with
  | Some theFormId, Some theTip =>
      Some {| sentFormId := theFormId;
              sentInvoice := buildInputInvoice (inputInvoice args);
              sentRequestedInfoId := requestedInfoId args;
              sentShippingOptionId := shippingOptionId args;
              sentCredentials := inputCredentials args;
              sentTipAmount := theTip |}
  | _, _ => None
  end.



(** [premium.GetBoostsList] *)
Record GetBoostsListRequest := {
  peer : InputPeer;
  gifts : option bool;
  offset : string;
  limit : option Z;
}.

(** The request of [fetchBoostList], payments.ts lines 269-285 *)
Definition fetchBoostListRequest (chat : ApiChat) (isGifts : option bool)
    (offsetArgument : option string) (limitArgument : option Z)
    : GetBoostsListRequest :=
  {| peer := buildInputPeer (chatId chat) (accessHash chat);
     gifts := orUndefined isGifts;
     offset := default "" offsetArgument;
     limit := limitArgument |}.

(** A method ends with the given return value, having published no
    notification and registered nothing into the local database. *)
Definition returnsQuietly {A} (outcome : Eff A) (returned : A) : Prop :=
  outcome.1 = returned ∧ published outcome.2 = [] ∧ registered outcome.2 = [].

(** ** Properties of the methods *)

Lemma published_app (es1 es2 : list Effect) :
  published (es1 ++ es2) = published es1 ++ published es2.
Proof. unfold published. apply omap_app. Qed.

Lemma Eff_bind_effects {A B} (m : Eff A) (k : A → Eff B) :
  (m ≫= k).2 = m.2 ++ (k m.1).2.
Proof. unfold mbind, Eff_bind. destruct (k m.1); reflexivity. Qed.

(** Registering the videos of a premium promo publishes nothing. *)
Lemma forEach_registerVideo_published (array : list TypeDocument) :
  published (forEach registerVideo array).2 = [].
Proof.
  induction array as [|video rest IH]; [reflexivity|].
  cbn [forEach]. rewrite Eff_bind_effects, published_app, IH.
  destruct video; reflexivity.
Qed.

(** C1.  When [sendPaymentForm] receives [PaymentVerificationNeeded], it
    returns [undefined] and its only effect is the publication of one
    [updatePaymentVerificationNeeded] update carrying the response's URL;
    in particular no updates are handed to [handleGramJsUpdate]. *)
Theorem sendPaymentForm_verification_needed (url : string) :
  let outcome := sendPaymentForm (Some (PaymentVerificationNeeded url)) in
  outcome.1 = None
  ∧ outcome.2 = [SendApiUpdate (UpdatePaymentVerificationNeeded url)]
  ∧ published outcome.2 = [UpdatePaymentVerificationNeeded url]
  ∧ handled outcome.2 = []
  ∧ registered outcome.2 = [].
Proof. cbv zeta. repeat split. Qed.

(** C2 (amended).  When the awaited result is absent, every method returns
    without publishing a notification and without registering anything into
    the local database; the two payment submissions return [false] and every
    other method returns [undefined]. *)
Theorem absent_result_outcomes :
  returnsQuietly (sendPaymentForm None) (Some false)
  ∧ returnsQuietly (sendStarPaymentForm None) (Some false)
  ∧ returnsQuietly (validateRequestedInfo None) None
  ∧ returnsQuietly (getPaymentForm None) None
  ∧ returnsQuietly (getReceipt None) None
  ∧ returnsQuietly (fetchPremiumPromo None) None
  ∧ returnsQuietly (fetchTemporaryPaymentPassword None) None
  ∧ returnsQuietly (fetchMyBoosts None) None
  ∧ returnsQuietly (applyBoost None) None
  ∧ returnsQuietly (fetchBoostStatus None) None
  ∧ returnsQuietly (fetchBoostList None) None
  ∧ returnsQuietly (fetchGiveawayInfo None) None
  ∧ returnsQuietly (checkGiftCode None) None
  ∧ returnsQuietly (applyGiftCode None) None
  ∧ returnsQuietly (getPremiumGiftCodeOptions None) None
  ∧ returnsQuietly (getStarsGiftOptions None) None
  ∧ returnsQuietly (fetchStarsGiveawayOptions None) None
  ∧ returnsQuietly (launchPrepaidGiveaway None) None
  ∧ returnsQuietly (fetchStarsStatus None) None
  ∧ returnsQuietly (fetchStarsTransactions None) None
  ∧ returnsQuietly (fetchStarsTransactionById None) None
  ∧ returnsQuietly (fetchStarsTopupOptions None) None.
Proof. repeat split. Qed.

(** C3 (amended).  When [sendStarPaymentForm] receives
    [PaymentVerificationNeeded], it records a warning when [DEBUG] is set
    and returns [undefined]: it hands no updates to [handleGramJsUpdate],
    publishes no notification, and has no effect other than the warning. *)
Theorem sendStarPaymentForm_verification_needed (url : string) :
  let outcome := sendStarPaymentForm (Some (PaymentVerificationNeeded url)) in
  outcome.1 = None
  ∧ outcome.2 = (if DEBUG
                 then [ConsoleWarn "Unexpected PaymentVerificationNeeded in sendStarsForm"]
                 else [])
  ∧ handled outcome.2 = []
  ∧ published outcome.2 = [].
Proof. cbv zeta. unfold sendStarPaymentForm. destruct DEBUG; repeat split. Qed.

(** C7.  When a payment submission ([sendPaymentForm] or
    [sendStarPaymentForm]) receives a [PaymentResult], it returns the
    boolean [true] and publishes no notification; its one effect is to hand
    the result's updates to [handleGramJsUpdate]. *)
Theorem payment_result_returns_boolean (updates : Updates) :
  let paid := sendPaymentForm (Some (PaymentResult updates)) in
  let paidInStars := sendStarPaymentForm (Some (PaymentResult updates)) in
  (paid.1 = Some true ∧ published paid.2 = []
   ∧ paid.2 = [HandleGramJsUpdate updates])
  ∧ (paidInStars.1 = Some true ∧ published paidInStars.2 = []
     ∧ paidInStars.2 = [HandleGramJsUpdate updates]).
Proof. cbv zeta. repeat split. Qed.

(** C10.  [validateRequestedInfo] returns [undefined] when the result is
    absent, when the result has no [id], and when its [id] is the empty
    string; when the [id] is a non-empty string it returns that [id] with
    the built shipping options.  It has no effects in any case. *)
Theorem validateRequestedInfo_outcomes :
  validateRequestedInfo None = (None, [])
  ∧ (∀ options,
       validateRequestedInfo (Some {| id := None; shippingOptions := options |})
       = (None, []))
  ∧ (∀ options,
       validateRequestedInfo (Some {| id := Some ""; shippingOptions := options |})
       = (None, []))
  ∧ (∀ first rest options,
       validateRequestedInfo
         (Some {| id := Some (String first rest); shippingOptions := options |})
       = (Some {| validatedId := String first rest;
                  validatedShippingOptions := buildShippingOptions options |}, [])).
Proof. repeat split. Qed.

(** ** Further properties of the methods *)

Lemma forEach_registerVideo_effects (array : list TypeDocument) :
  (forEach registerVideo array).2 = omap videoRegistration array.
Proof.
  induction array as [|video rest IH]; [reflexivity|].
  cbn [forEach]. rewrite Eff_bind_effects, IH.
  destruct video; reflexivity.
Qed.

Lemma fetchPremiumPromo_effects (result : PremiumPromo) :
  (fetchPremiumPromo (Some result)).2 = omap videoRegistration (videos result).
Proof.
  unfold fetchPremiumPromo. rewrite Eff_bind_effects, forEach_registerVideo_effects.
  apply app_nil_r.
Qed.

Lemma documentsAfter_snoc (es : list Effect) (e : Effect)
    (documents : gmap string TypeDocument) :
  documentsAfter (es ++ [e]) documents
  = match e with
    | SetLocalDbDocument key video => <[key:=video]> (documentsAfter es documents)
    | _ => documentsAfter es documents
    end.
Proof. unfold documentsAfter. rewrite foldl_snoc. reflexivity. Qed.

Lemma omap_videoRegistration_snoc (array : list TypeDocument) (video : TypeDocument) :
  omap videoRegistration (array ++ [video])
  = omap videoRegistration array
    ++ match videoRegistration video with Some e => [e] | None => [] end.
Proof. rewrite omap_app. simpl. destruct (videoRegistration video); reflexivity. Qed.

(** X1.  After [fetchPremiumPromo], every [Document] among the promo's
    videos is found in [localDb.documents] under the decimal string of its
    id, and what is found there is a [Document] with that id. *)
Theorem fetchPremiumPromo_documents_found (result : PremiumPromo)
    (documents : gmap string TypeDocument) (documentId : Z) (data : DocumentData) :
  Document documentId data ∈ videos result →
  ∃ stored,
    documentsAfter (fetchPremiumPromo (Some result)).2 documents !! pretty documentId
    = Some (Document documentId stored).
Proof.
  rewrite fetchPremiumPromo_effects. generalize (videos result) as array.
  induction array as [|video array IH] using rev_ind; intros Hin.
  - by apply elem_of_nil in Hin.
  - rewrite omap_videoRegistration_snoc.
    destruct video as [lastId lastData|lastId]; simpl.
    + rewrite documentsAfter_snoc.
      destruct (decide (lastId = documentId)) as [->|Hne].
      * exists lastData. apply lookup_insert_eq.
      * rewrite lookup_insert_ne by (intros Hkey; apply Hne, (inj pretty), Hkey).
        apply IH. apply elem_of_app in Hin as [Hin|Hin]; [exact Hin|].
        apply list_elem_of_singleton in Hin. congruence.
    + rewrite app_nil_r. apply IH.
      apply elem_of_app in Hin as [Hin|Hin]; [exact Hin|].
      apply list_elem_of_singleton in Hin. discriminate.
Qed.

(** X2.  [fetchPremiumPromo] leaves every entry of [localDb.documents]
    alone whose key is not the decimal string of the id of a [Document]
    among the promo's videos. *)
Theorem fetchPremiumPromo_other_keys_untouched (result : PremiumPromo)
    (documents : gmap string TypeDocument) (key : string) :
  (∀ documentId data, Document documentId data ∈ videos result →
                      pretty documentId ≠ key) →
  documentsAfter (fetchPremiumPromo (Some result)).2 documents !! key
  = documents !! key.
Proof.
  rewrite fetchPremiumPromo_effects. generalize (videos result) as array.
  induction array as [|video array IH] using rev_ind; intros Hother; [reflexivity|].
  rewrite omap_videoRegistration_snoc.
  assert (documentsAfter (omap videoRegistration array) documents !! key
          = documents !! key) as Hbefore.
  { apply IH. intros i d Hin. apply (Hother i d), elem_of_app. left. exact Hin. }
  destruct video as [lastId lastData|lastId]; simpl.
  - rewrite documentsAfter_snoc, lookup_insert_ne; [exact Hbefore|].
    apply (Hother lastId lastData), elem_of_app. right. left.
  - rewrite app_nil_r. exact Hbefore.
Qed.

(** X3.  Every effect of [fetchPremiumPromo] is the registration of a
    [Document] of the promo's videos under the decimal string of its id:
    an empty document is never stored, and nothing is published or warned. *)
Theorem fetchPremiumPromo_stores_only_documents (result : PremiumPromo)
    (e : Effect) :
  e ∈ (fetchPremiumPromo (Some result)).2 →
  ∃ documentId data,
    Document documentId data ∈ videos result
    ∧ e = SetLocalDbDocument (pretty documentId) (Document documentId data).
Proof.
  rewrite fetchPremiumPromo_effects, list_elem_of_omap.
  intros [[documentId data|documentId] [Hin Hregistered]]; [|discriminate].
  exists documentId, data. split; [exact Hin|]. simpl in Hregistered. congruence.
Qed.

(** Case analysis on what a method inspects. *)
Ltac by_cases_of_method :=
  intros;
  repeat match goal with
         | |- context [match ?x with _ => _ end] => destruct x
         end;
  reflexivity.

(** X4.  Whatever the awaited result is, no method publishes a notification
    except [sendPaymentForm], which publishes exactly when the result is
    [PaymentVerificationNeeded]. *)
Theorem only_sendPaymentForm_publishes :
  (∀ result, published (sendPaymentForm result).2
             = match result with
               | Some (PaymentVerificationNeeded url) =>
                   [UpdatePaymentVerificationNeeded url]
               | _ => []
               end)
  ∧ (∀ result, published (sendStarPaymentForm result).2 = [])
  ∧ (∀ result, published (validateRequestedInfo result).2 = [])
  ∧ (∀ result, published (getPaymentForm result).2 = [])
  ∧ (∀ result, published (getReceipt result).2 = [])
  ∧ (∀ result, published (fetchPremiumPromo result).2 = [])
  ∧ (∀ result, published (fetchTemporaryPaymentPassword result).2 = [])
  ∧ (∀ result, published (fetchMyBoosts result).2 = [])
  ∧ (∀ result, published (applyBoost result).2 = [])
  ∧ (∀ result, published (fetchBoostStatus result).2 = [])
  ∧ (∀ result, published (fetchBoostList result).2 = [])
  ∧ (∀ result, published (fetchGiveawayInfo result).2 = [])
  ∧ (∀ result, published (checkGiftCode result).2 = [])
  ∧ (∀ result, published (applyGiftCode result).2 = [])
  ∧ (∀ result, published (getPremiumGiftCodeOptions result).2 = [])
  ∧ (∀ result, published (getStarsGiftOptions result).2 = [])
  ∧ (∀ result, published (fetchStarsGiveawayOptions result).2 = [])
  ∧ (∀ result, published (launchPrepaidGiveaway result).2 = [])
  ∧ (∀ result, published (fetchStarsStatus result).2 = [])
  ∧ (∀ result, published (fetchStarsTransactions result).2 = [])
  ∧ (∀ result, published (fetchStarsTransactionById result).2 = [])
  ∧ (∀ result, published (fetchStarsTopupOptions result).2 = []).
Proof.
  repeat split; try (intros [result|]; [|reflexivity]);
    try (unfold fetchPremiumPromo;
         rewrite Eff_bind_effects, published_app, forEach_registerVideo_published;
         reflexivity);
    unfold sendPaymentForm, sendStarPaymentForm, validateRequestedInfo,
      getPaymentForm, fetchTemporaryPaymentPassword, fetchStarsTransactionById;
    by_cases_of_method.
Qed.

(** X5.  Whatever the awaited result is, only two methods register objects
    into the local database: [getPaymentForm] registers the form's photo when
    the form has one (and nothing otherwise), and all effects of
    [fetchPremiumPromo] are registrations.  No other method registers
    anything. *)
Theorem registrations_come_from_two_methods :
  (∀ result, (getPaymentForm result).2
             = match result with
               | Some {| photo := Some thePhoto |} => [AddWebDocumentToLocalDb thePhoto]
               | _ => []
               end)
  ∧ (∀ result, registered (fetchPremiumPromo result).2 = (fetchPremiumPromo result).2)
  ∧ (∀ result, registered (sendPaymentForm result).2 = [])
  ∧ (∀ result, registered (sendStarPaymentForm result).2 = [])
  ∧ (∀ result, registered (validateRequestedInfo result).2 = [])
  ∧ (∀ result, registered (getReceipt result).2 = [])
  ∧ (∀ result, registered (fetchTemporaryPaymentPassword result).2 = [])
  ∧ (∀ result, registered (fetchMyBoosts result).2 = [])
  ∧ (∀ result, registered (applyBoost result).2 = [])
  ∧ (∀ result, registered (fetchBoostStatus result).2 = [])
  ∧ (∀ result, registered (fetchBoostList result).2 = [])
  ∧ (∀ result, registered (fetchGiveawayInfo result).2 = [])
  ∧ (∀ result, registered (checkGiftCode result).2 = [])
  ∧ (∀ result, registered (applyGiftCode result).2 = [])
  ∧ (∀ result, registered (getPremiumGiftCodeOptions result).2 = [])
  ∧ (∀ result, registered (getStarsGiftOptions result).2 = [])
  ∧ (∀ result, registered (fetchStarsGiveawayOptions result).2 = [])
  ∧ (∀ result, registered (launchPrepaidGiveaway result).2 = [])
  ∧ (∀ result, registered (fetchStarsStatus result).2 = [])
  ∧ (∀ result, registered (fetchStarsTransactions result).2 = [])
  ∧ (∀ result, registered (fetchStarsTransactionById result).2 = [])
  ∧ (∀ result, registered (fetchStarsTopupOptions result).2 = []).
Proof.
  split; [intros [[[thePhoto|] rest]|]; reflexivity|].
  split.
  { intros [result|]; [|reflexivity]. rewrite fetchPremiumPromo_effects.
    unfold registered. generalize (videos result) as array.
    induction array as [|[documentId data|documentId] array IH]; simpl;
      [reflexivity| |exact IH].
    rewrite filter_cons_True by reflexivity. f_equal. exact IH. }
  repeat split; try (intros [result|]; [|reflexivity]);
    unfold sendPaymentForm, sendStarPaymentForm, validateRequestedInfo,
      fetchTemporaryPaymentPassword, fetchStarsTransactionById;
    by_cases_of_method.
Qed.

(** X6.  The value [sendPaymentForm] returns tells the caller which result
    was received: [false] exactly for an absent result, [undefined] exactly
    for [PaymentVerificationNeeded], [true] exactly for a [PaymentResult].
    It performs at most one effect. *)
Theorem sendPaymentForm_return_tells_result (result : option TypePaymentResult) :
  let outcome := sendPaymentForm result in
  (outcome.1 = Some false ↔ result = None)
  ∧ (outcome.1 = None ↔ ∃ url, result = Some (PaymentVerificationNeeded url))
  ∧ (outcome.1 = Some true ↔ ∃ updates, result = Some (PaymentResult updates))
  ∧ length outcome.2 ≤ 1.
Proof.
  cbv zeta. destruct result as [[updates|url]|]; simpl;
    repeat split; try discriminate; try lia; eauto;
    intros [? ?]; discriminate.
Qed.

(** X7.  On every result [sendStarPaymentForm] returns what
    [sendPaymentForm] returns and hands the same updates to
    [handleGramJsUpdate]; it differs only in never publishing a
    notification. *)
Theorem star_submission_returns_like_standard (result : option TypePaymentResult) :
  (sendStarPaymentForm result).1 = (sendPaymentForm result).1
  ∧ handled (sendStarPaymentForm result).2 = handled (sendPaymentForm result).2
  ∧ published (sendStarPaymentForm result).2 = []
  ∧ length (warned (sendStarPaymentForm result).2) ≤ 1.
Proof.
  unfold sendStarPaymentForm.
  destruct result as [[updates|url]|]; [repeat split; simpl; lia| |repeat split; simpl; lia].
  destruct DEBUG; repeat split; simpl; lia.
Qed.

(** X8.  [fetchStarsTransactionById] returns [undefined] exactly when the
    result is absent, has no history, or has an empty history; otherwise it
    returns the first transaction of the history, built, whatever follows
    it.  It has no effects. *)
Theorem fetchStarsTransactionById_first_only :
  (∀ result,
     (fetchStarsTransactionById result).1 = None
     ↔ result = None
       ∨ ∃ status, result = Some status
                   ∧ (starsHistory status = None ∨ starsHistory status = Some []))
  ∧ (∀ theOffset first rest theBalance,
       (fetchStarsTransactionById
          (Some {| starsNextOffset := theOffset;
                   starsHistory := Some (first :: rest);
                   balance := theBalance |})).1
       = Some (buildApiStarsTransaction first))
  ∧ (∀ result, (fetchStarsTransactionById result).2 = []).
Proof.
  split; [|split; [reflexivity|]].
  - intros result. unfold fetchStarsTransactionById, firstTransaction.
    destruct result as [[theOffset [[|first rest]|] theBalance]|]; simpl.
    + split; [|reflexivity]. intros _. right. eexists. split; [reflexivity|]. by right.
    + split; [discriminate|].
      intros [?|[status [Hstatus [Hhistory|Hhistory]]]]; [discriminate|..];
        injection Hstatus as <-; discriminate Hhistory.
    + split; [|reflexivity]. intros _. right. eexists. split; [reflexivity|]. by left.
    + split; [|reflexivity]. intros _. by left.
  - intros result. unfold fetchStarsTransactionById.
    destruct (firstTransaction result); reflexivity.
Qed.

(** X9.  Whenever [validateRequestedInfo] returns an object, its [id] is
    the non-empty [id] of the result received and its shipping options are
    those of that result, built. *)
Theorem validateRequestedInfo_returned_id (result : option ValidatedRequestedInfo)
    (returned : ValidatedInfo) :
  (validateRequestedInfo result).1 = Some returned →
  validatedId returned ≠ ""
  ∧ ∃ raw, result = Some raw
           ∧ id raw = Some (validatedId returned)
           ∧ validatedShippingOptions returned
             = buildShippingOptions (shippingOptions raw).
Proof.
  unfold validateRequestedInfo.
  destruct result as [[[theId|] options]|]; simpl; try discriminate.
  destruct (String.eqb theId "") eqn:Hempty; simpl; [discriminate|].
  intros Hreturned. injection Hreturned as <-. simpl. split.
  - intros ->. discriminate Hempty.
  - eexists. repeat split.
Qed.



(** X12.  The optional flags of the requests are sent as [true] or left
    out, never sent as [false]: [save] of [validateRequestedInfo] and [gifts]
    of [fetchBoostList] are [true] exactly when the argument is [true], and a
    [false] argument gives the request of a missing one.  [fetchBoostList]
    sends the empty string as offset when none is given. *)
Theorem optional_flags_true_or_left_out (theInvoice : ApiRequestInputInvoice)
    (theInfo : RequestedInfo) (chat : ApiChat) (theLimit : option Z) :
  (∀ shouldSave,
     save (validateRequestedInfoRequest theInvoice theInfo shouldSave)
     = if bool_decide (shouldSave = Some true) then Some true else None)
  ∧ validateRequestedInfoRequest theInvoice theInfo (Some false)
    = validateRequestedInfoRequest theInvoice theInfo None
  ∧ (∀ isGifts theOffset,
       gifts (fetchBoostListRequest chat isGifts theOffset theLimit)
       = if bool_decide (isGifts = Some true) then Some true else None)
  ∧ (∀ theOffset,
       fetchBoostListRequest chat (Some false) theOffset theLimit
       = fetchBoostListRequest chat None theOffset theLimit)
  ∧ (∀ isGifts,
       fetchBoostListRequest chat isGifts None theLimit
       = fetchBoostListRequest chat isGifts (Some "") theLimit).
Proof.
  repeat split; try reflexivity; intros [[|]|]; reflexivity.
Qed.

(** X13.  A temporary password obtained through
    [fetchTemporaryPaymentPassword] and handed to [sendPaymentForm] with a
    non-empty saved credential id is sent as the bytes that were received,
    provided deserializing undoes serializing for them, their serialization
    is not the empty string, [BigInt] accepts the form id and the tip can be
    sent. *)
Theorem fetched_password_reaches_request (bytes : Bytes) (validUntil : Z)
    (savedId : string) (theInvoice : ApiRequestInputInvoice) (theFormId : string)
    (numericId : Z) (given : ApiCredentials) (infoId optionId : option string)
    (tip : option JsNumberValue) (theTip : option Z) :
  deserializeBytes (serializeBytes bytes) = bytes →
  serializeBytes bytes ≠ "" →
  savedId ≠ "" →
  bigInt theFormId = Some numericId →
  tipToSend tip = Some theTip →
  ∃ fetched,
    (fetchTemporaryPaymentPassword (Some (TmpPassword bytes validUntil))).1
    = Some (inr fetched)
    ∧ passwordValidUntil fetched = validUntil
    ∧ sentCredentials
        <$> sendPaymentFormRequest
              {| inputInvoice := theInvoice; formId := theFormId; credentials := given;
                 requestedInfoId := infoId; shippingOptionId := optionId;
                 savedCredentialId := Some savedId;
                 temporaryPassword := Some (value fetched);
                 tipAmount := tip |}
      = Some (InputPaymentCredentialsSaved savedId bytes).
Proof.
  intros Hround Hserialized Hsaved HformId Htip. eexists. split; [reflexivity|].
  split; [reflexivity|]. unfold sendPaymentFormRequest, inputCredentials. simpl.
  apply String.eqb_neq in Hserialized, Hsaved.
  rewrite HformId, Htip, Hserialized, Hsaved, Hround. reflexivity.
Qed.

End Methods.

(** ** Concrete runs *)

(** C2, as stated, fails: on an absent result the two payment submissions
    return [false], not [undefined]. *)
Lemma absent_payment_submission_returns_false :
  (sendPaymentForm unit unit unit None).1 ≠ None
  ∧ (sendStarPaymentForm unit unit unit true None).1 ≠ None.
Proof. split; discriminate. Qed.

(** C3, as stated, fails: on [PaymentVerificationNeeded] the stars
    submission returns no boolean and hands no updates to
    [handleGramJsUpdate]. *)
Lemma star_verification_needed_returns_undefined :
  let outcome :=
    sendStarPaymentForm unit unit unit true
      (Some (PaymentVerificationNeeded unit "https://bank.example/verify")) in
  ¬ (∃ completed : bool, outcome.1 = Some completed)
  ∧ handled unit unit unit outcome.2 = [].
Proof. split; [intros [completed H]; discriminate H|reflexivity]. Qed.

(** A promo with the same document id twice and an empty document. *)
Lemma fetchPremiumPromo_documents_found_witness :
  let promo : PremiumPromo string unit :=
    {| videos := [Document string 7 "intro"; DocumentEmpty string 8;
                  Document string 7 "intro, again"];
       premiumPromoData := tt |} in
  Document string 7 "intro" ∈ videos string unit promo
  ∧ ∃ stored,
      documentsAfter unit unit string
        (fetchPremiumPromo unit unit string unit unit (λ _, tt) (Some promo)).2 ∅
      !! "7"
      = Some (Document string 7 stored).
Proof.
  cbv zeta. split; [left|].
  apply (fetchPremiumPromo_documents_found unit unit string unit unit (λ _, tt)
           _ ∅ 7 "intro").
  left.
Defined.

(** An entry stored under the id of an empty document of the promo is kept. *)
Lemma fetchPremiumPromo_other_keys_untouched_witness :
  let promo : PremiumPromo string unit :=
    {| videos := [Document string 7 "intro"; DocumentEmpty string 8];
       premiumPromoData := tt |} in
  (∀ documentId data, Document string documentId data ∈ videos string unit promo →
                      pretty documentId ≠ "8")
  ∧ documentsAfter unit unit string
      (fetchPremiumPromo unit unit string unit unit (λ _, tt) (Some promo)).2
      {[ "8" := Document string 8 "kept" ]}
    !! "8"
    = Some (Document string 8 "kept").
Proof.
  intros promo.
  assert (∀ documentId data,
            Document string documentId data ∈ videos string unit promo →
            pretty documentId ≠ "8") as Hother.
  { intros documentId data Hin.
    apply elem_of_cons in Hin as [Hin|Hin].
    - injection Hin as -> _. discriminate.
    - apply list_elem_of_singleton in Hin. discriminate. }
  split; [exact Hother|].
  rewrite (fetchPremiumPromo_other_keys_untouched unit unit string unit unit (λ _, tt)
             promo _ "8" Hother).
  apply lookup_singleton_eq.
Defined.

(** The one registration of a promo with an empty document and a document. *)
Lemma fetchPremiumPromo_stores_only_documents_witness :
  let promo : PremiumPromo string unit :=
    {| videos := [DocumentEmpty string 8; Document string 7 "intro"];
       premiumPromoData := tt |} in
  let e := SetLocalDbDocument unit unit string "7" (Document string 7 "intro") in
  e ∈ (fetchPremiumPromo unit unit string unit unit (λ _, tt) (Some promo)).2
  ∧ ∃ documentId data,
      Document string documentId data ∈ videos string unit promo
      ∧ e = SetLocalDbDocument unit unit string (pretty documentId)
              (Document string documentId data).
Proof.
  cbv zeta. split; [left|].
  apply (fetchPremiumPromo_stores_only_documents unit unit string unit unit (λ _, tt)).
  left.
Defined.

(** A validated info with an id and one shipping option. *)
Lemma validateRequestedInfo_returned_id_witness :
  let raw : ValidatedRequestedInfo nat :=
    {| id := Some "info-1"; shippingOptions := Some [3] |} in
  let returned : ValidatedInfo (option (list nat)) :=
    {| validatedId := "info-1"; validatedShippingOptions := Some [3] |} in
  (validateRequestedInfo unit unit unit nat (option (list nat)) (λ options, options)
     (Some raw)).1 = Some returned
  ∧ validatedId _ returned ≠ "".
Proof.
  intros raw returned.
  assert ((validateRequestedInfo unit unit unit nat (option (list nat)) (λ options, options)
             (Some raw)).1 = Some returned) as Hreturned by reflexivity.
  split; [exact Hreturned|].
  apply (validateRequestedInfo_returned_id unit unit unit nat (option (list nat))
           (λ options, options) (Some raw) returned Hreturned).
Defined.



(** Bytes kept as their own serialization, sent with a saved card. *)
Lemma fetched_password_reaches_request_witness :
  let parse := λ text, if String.eqb text "42" then Some 42%Z else None in
  ∃ fetched,
    (fetchTemporaryPaymentPassword unit unit unit string unit (λ bytes, bytes)
       (Some (TmpPassword string unit "c2VjcmV0" 1700000000))).1
    = Some (inr fetched)
    ∧ passwordValidUntil fetched = 1700000000%Z
    ∧ sentCredentials string unit
        <$> sendPaymentFormRequest string unit unit (λ _, tt) (λ text, text)
              unit (λ _, "{}") parse
              {| inputInvoice := tt; formId := "42";
                 credentials := {| credentialsSave := None; credentialsData := tt |};
                 requestedInfoId := None; shippingOptionId := None;
                 savedCredentialId := Some "card-1";
                 temporaryPassword := Some (value fetched);
                 tipAmount := None |}
      = Some (InputPaymentCredentialsSaved string "card-1" "c2VjcmV0").
Proof.
  intros parse.
  apply (fetched_password_reaches_request unit unit unit string unit (λ bytes, bytes)
           unit unit (λ _, tt) (λ text, text) unit (λ _, "{}") parse
           "c2VjcmV0" 1700000000 "card-1" tt "42" 42
           {| credentialsSave := None; credentialsData := tt |} None None None None);
    [reflexivity|discriminate|discriminate|reflexivity|reflexivity].
Defined.

End Payments.

(* ====================================================================== *)
(** * Properties of the close-friends picker *)
(* ====================================================================== *)

Module CloseFriendsSpec.
Import CloseFriends.

(** ** De-duplication *)

Lemma filter_agree {A} (P Q : A → Prop) `{∀ x, Decision (P x)} `{∀ x, Decision (Q x)}
    (l : list A) :
  (∀ x, x ∈ l → (P x ↔ Q x)) → filter P l = filter Q l.
Proof.
  induction l as [|x l IH]; intros Hagree; [reflexivity|].
  rewrite !filter_cons.
  rewrite IH by (intros y Hy; apply Hagree; right; exact Hy).
  assert (P x ↔ Q x) as Hx by (apply Hagree; left).
  destruct (decide (P x)), (decide (Q x)); tauto || reflexivity.
Qed.

Lemma filter_all {A} (P : A → Prop) `{∀ x, Decision (P x)} (l : list A) :
  (∀ x, x ∈ l → P x) → filter P l = l.
Proof.
  induction l as [|x l IH]; intros Hall; [reflexivity|].
  rewrite filter_cons_True by (apply Hall; left).
  f_equal. apply IH. intros y Hy. apply Hall. right. exact Hy.
Qed.

Lemma elem_of_uniqueFrom (seen array : list string) (x : string) :
  x ∈ uniqueFrom seen array ↔ x ∈ array ∧ x ∉ seen.
Proof.
  revert seen. induction array as [|y rest IH]; intros seen; simpl.
  - rewrite elem_of_nil. tauto.
  - destruct (decide (y ∈ seen)) as [Hin|Hout].
    + rewrite IH, elem_of_cons. split; [tauto|].
      intros [[->|Hx] Hfresh]; [contradiction|tauto].
    + rewrite !elem_of_cons, IH, not_elem_of_cons. split.
      * intros [->|[Hx [Hne Hfresh]]]; tauto.
      * intros [[->|Hx] Hfresh]; [tauto|].
        destruct (decide (x = y)); tauto.
Qed.

Lemma NoDup_uniqueFrom (seen array : list string) : NoDup (uniqueFrom seen array).
Proof.
  revert seen. induction array as [|y rest IH]; intros seen; simpl.
  - constructor.
  - destruct (decide (y ∈ seen)); [apply IH|].
    apply NoDup_cons. split; [|apply IH].
    rewrite elem_of_uniqueFrom, not_elem_of_cons. tauto.
Qed.

Lemma uniqueFrom_filter (seen array : list string) :
  uniqueFrom seen array = filter (λ x, x ∉ seen) (unique array).
Proof.
  unfold unique. revert seen.
  induction array as [|y rest IH]; intros seen; simpl; [reflexivity|].
  rewrite filter_cons. rewrite (IH [y]), list_filter_filter.
  destruct (decide (y ∈ seen)) as [Hin|Hout].
  - rewrite decide_False by tauto. rewrite IH.
    apply filter_agree. intros x _. rewrite not_elem_of_cons, elem_of_nil.
    split; [|tauto]. intros Hx. repeat split; [assumption| |tauto].
    intros ->. contradiction.
  - rewrite decide_True by assumption. f_equal. rewrite IH.
    apply filter_agree. intros x _. rewrite !not_elem_of_cons, elem_of_nil. tauto.
Qed.

Lemma uniqueFrom_app (seen l1 l2 : list string) :
  uniqueFrom seen (l1 ++ l2)
  = uniqueFrom seen l1 ++ filter (λ x, x ∉ l1) (uniqueFrom seen l2).
Proof.
  revert seen. induction l1 as [|y rest IH]; intros seen; simpl.
  - symmetry. apply filter_all. intros x _. rewrite elem_of_nil. tauto.
  - destruct (decide (y ∈ seen)) as [Hin|Hout].
    + rewrite IH. f_equal. apply filter_agree. intros x Hx.
      apply elem_of_uniqueFrom in Hx as [_ Hfresh].
      rewrite not_elem_of_cons. split; [|tauto].
      intros Hrest. split; [|assumption]. intros ->. contradiction.
    + rewrite IH. cbn [app]. f_equal. f_equal.
      rewrite (uniqueFrom_filter (y :: seen)), (uniqueFrom_filter seen).
      rewrite !list_filter_filter. apply filter_agree. intros x _.
      rewrite !not_elem_of_cons. tauto.
Qed.

Lemma unique_app (l1 l2 : list string) :
  unique (l1 ++ l2) = unique l1 ++ filter (λ x, x ∉ l1) (unique l2).
Proof. apply uniqueFrom_app. Qed.

Lemma uniqueFrom_filter_commute (P : string → Prop) `{∀ x, Decision (P x)}
    (seen array : list string) :
  uniqueFrom seen (filter P array) = filter P (uniqueFrom seen array).
Proof.
  revert seen. induction array as [|y rest IH]; intros seen; [reflexivity|].
  rewrite filter_cons. destruct (decide (P y)) as [Hy|Hy]; simpl.
  - destruct (decide (y ∈ seen)); [apply IH|].
    rewrite filter_cons_True by assumption. f_equal. apply IH.
  - destruct (decide (y ∈ seen)); [apply IH|].
    rewrite filter_cons_False by assumption.
    rewrite IH, (uniqueFrom_filter (y :: seen)), (uniqueFrom_filter seen).
    rewrite !list_filter_filter. apply filter_agree. intros x _.
    rewrite not_elem_of_cons. split; [|tauto].
    intros [Hx Hseen]. repeat split; try assumption. intros ->. contradiction.
Qed.

Lemma closeFriendIds_flagged (contactListIds : option (list string))
    (usersById : gmap string ApiUser) (id : string) :
  id ∈ closeFriendIds contactListIds usersById
  ↔ id ∈ default [] contactListIds
    ∧ ∃ user, usersById !! id = Some user ∧ isCloseFriend user = Some true.
Proof.
  unfold closeFriendIds. rewrite list_elem_of_filter.
  split; intros [Hflag Hin]; (split; [|try exact Hflag; try exact Hin]).
  - exact Hin.
  - destruct (usersById !! id) as [user|]; [|discriminate].
    exists user. split; [reflexivity|]. simpl in Hflag.
    destruct (isCloseFriend user) as [[|]|]; try discriminate. reflexivity.
  - destruct Hin as [user [-> Hfriend]]. simpl. rewrite Hfriend. reflexivity.
Qed.

Section Picker.

Variable searchMatch : string → ApiUser → bool.


(** ** The name filter *)

Lemma elem_of_filterUsersByName (userIds : list string)
    (usersById : gmap string ApiUser) (query id : string) :
  id ∈ filterUsersByName searchMatch userIds usersById query
  ↔ id ∈ userIds ∧ passesFilter searchMatch usersById query id = true.
Proof.
  unfold filterUsersByName, passesFilter.
  destruct (String.eqb query ""); simpl.
  - tauto.
  - rewrite list_elem_of_filter. tauto.
Qed.

Lemma filterUsersByName_app (l1 l2 : list string)
    (usersById : gmap string ApiUser) (query : string) :
  filterUsersByName searchMatch (l1 ++ l2) usersById query
  = filterUsersByName searchMatch l1 usersById query ++ filterUsersByName searchMatch l2 usersById query.
Proof.
  unfold filterUsersByName.
  destruct (String.eqb query ""); [reflexivity|apply filter_app].
Qed.

Lemma filterUsersByName_no_query (userIds : list string)
    (usersById : gmap string ApiUser) :
  filterUsersByName searchMatch userIds usersById "" = userIds.
Proof. reflexivity. Qed.

(** ** The displayed ids *)

Lemma elem_of_displayedIds (baseline : list string)
    (contactListIds : option (list string)) (currentUserId searchQuery : string)
    (usersById : gmap string ApiUser) (id : string) :
  id ∈ displayedIds searchMatch baseline contactListIds currentUserId searchQuery usersById
  ↔ (id ∈ baseline ∨ (id ∈ default [] contactListIds ∧ id ≠ currentUserId))
    ∧ passesFilter searchMatch usersById searchQuery id = true.
Proof.
  unfold displayedIds, unique.
  rewrite elem_of_uniqueFrom, elem_of_filterUsersByName, elem_of_app,
    list_elem_of_filter, elem_of_nil.
  tauto.
Qed.

(** C4 (amended).  With the baseline being the close friends among the
    contacts, the displayed ids have no duplicates and are exactly the ids
    that pass the name filter and are either baseline ids or contacts other
    than the acting user.  With no filter text every baseline id is
    displayed, and the acting user's own id is not displayed when it is not
    itself a baseline id. *)
Theorem displayedIds_members (contactListIds : option (list string))
    (usersById : gmap string ApiUser) (currentUserId searchQuery : string) :
  let baseline := closeFriendIds contactListIds usersById in
  let displayed :=
    displayedIds searchMatch baseline contactListIds currentUserId searchQuery usersById in
  NoDup displayed
  ∧ (∀ id, id ∈ displayed
           ↔ (id ∈ baseline ∨ (id ∈ default [] contactListIds ∧ id ≠ currentUserId))
             ∧ passesFilter searchMatch usersById searchQuery id = true)
  ∧ baseline ⊆ displayedIds searchMatch baseline contactListIds currentUserId "" usersById
  ∧ (currentUserId ∉ baseline → currentUserId ∉ displayed).
Proof.
  cbv zeta. split; [apply NoDup_uniqueFrom|].
  split; [intros id; apply elem_of_displayedIds|].
  split.
  - intros id Hid. apply elem_of_displayedIds. split; [left; exact Hid|reflexivity].
  - intros Hself Hshown. apply elem_of_displayedIds in Hshown as [[?|[_ ?]] _];
      contradiction.
Qed.

(** C6 (amended).  The displayed ids are the filter-matched baseline ids, in baseline
    order and without repeats, followed by the filter-matched contacts other
    than the acting user that are not baseline ids, in contact-list order and
    without repeats.  With close friends A and B, contact list [C, A, D, B]
    and no filter text, they are [A, B, C, D]. *)
Theorem displayedIds_order (baseline : list string)
    (contactListIds : option (list string)) (currentUserId searchQuery : string)
    (usersById : gmap string ApiUser) :
  displayedIds searchMatch baseline contactListIds currentUserId searchQuery usersById
  = unique (filterUsersByName searchMatch baseline usersById searchQuery)
    ++ filter (λ id, id ∉ baseline)
         (unique (filterUsersByName searchMatch
                    (filter (λ id, id ≠ currentUserId) (default [] contactListIds))
                    usersById searchQuery))
  ∧ displayedIds searchMatch
      (closeFriendIds (Some ["C"; "A"; "D"; "B"])
         {[ "A" := {| userName := "Ann"; isCloseFriend := Some true |};
            "B" := {| userName := "Bob"; isCloseFriend := Some true |};
            "C" := {| userName := "Cy"; isCloseFriend := None |};
            "D" := {| userName := "Di"; isCloseFriend := Some false |} ]})
      (Some ["C"; "A"; "D"; "B"]) "me" ""
      {[ "A" := {| userName := "Ann"; isCloseFriend := Some true |};
         "B" := {| userName := "Bob"; isCloseFriend := Some true |};
         "C" := {| userName := "Cy"; isCloseFriend := None |};
         "D" := {| userName := "Di"; isCloseFriend := Some false |} ]}
    = ["A"; "B"; "C"; "D"].
Proof.
  split.
  - unfold displayedIds.
    rewrite filterUsersByName_app, unique_app. f_equal.
    apply filter_agree. intros id Hid.
    apply elem_of_uniqueFrom in Hid as [Hid _].
    apply elem_of_filterUsersByName in Hid as [_ Hpass].
    rewrite elem_of_filterUsersByName. tauto.
  - vm_compute. reflexivity.
Qed.


(** ** The activation edge *)

Lemma run_snoc (evs : list Event) (ev : Event) :
  run (evs ++ [ev]) = step (run evs) ev.
Proof. unfold run. apply foldl_snoc. Qed.

Lemma lastActive_snoc (evs : list Event) (ev : Event) :
  lastActive (evs ++ [ev])
  = match ev with
    | Render props _ => truthy (isActive props)
    | _ => lastActive evs
    end.
Proof. unfold lastActive. rewrite foldl_snoc. reflexivity. Qed.

(** A render leaves behind the active flag it was given. *)
Lemma prevIsActive_render (props : OwnProps) (sameArray : bool) (st : State) :
  prevIsActive (render props sameArray st) = isActive props.
Proof.
  unfold render, depsChanged, prevIsActive.
  destruct (prevDeps st) as [[wasActive ids]|] eqn:Hprev; simpl; [|reflexivity].
  destruct (decide (wasActive = isActive props)) as [->|Hne].
  - rewrite bool_decide_eq_true_2 by reflexivity. simpl.
    destruct sameArray; simpl; [|reflexivity].
    destruct (bool_decide _); simpl; [|reflexivity].
    rewrite Hprev. reflexivity.
  - rewrite bool_decide_eq_false_2 by assumption. reflexivity.
Qed.

(** The effect remembers whether the container was active at the latest
    render. *)
Lemma prevIsActive_run (evs : list Event) :
  truthy (prevIsActive (run evs)) = lastActive evs.
Proof.
  induction evs as [|ev evs IH] using rev_ind; [reflexivity|].
  rewrite run_snoc, lastActive_snoc.
  destruct ev; simpl; [|exact IH..].
  rewrite prevIsActive_render. reflexivity.
Qed.

(** What a render does to the working selection and the submit flag. *)
Lemma render_selection (props : OwnProps) (sameArray : bool) (st : State) :
  let st' := render props sameArray st in
  if negb (truthy (prevIsActive st)) && truthy (isActive props)
  then newSelectedContactIds st' = closeFriendIds (contactListIds props) (usersById props)
       ∧ isSubmitShown st' = false
  else newSelectedContactIds st' = newSelectedContactIds st
       ∧ isSubmitShown st' = isSubmitShown st.
Proof.
  cbv zeta. unfold render, activationEffect.
  destruct (negb (truthy (prevIsActive st)) && truthy (isActive props)) eqn:Hedge.
  - assert (depsChanged props sameArray st = true) as ->; [|split; reflexivity].
    unfold depsChanged. unfold prevIsActive in Hedge.
    destruct (prevDeps st) as [[wasActive ids]|]; [|reflexivity].
    rewrite bool_decide_eq_false_2; [reflexivity|].
    intros ->. destruct (truthy (isActive props)); discriminate.
  - destruct (depsChanged props sameArray st); split; reflexivity.
Qed.

(** C5.  After any history of events, a render resets the working selection
    to the baseline and hides the submit button exactly when the container
    was inactive at the latest render (or has not rendered yet) and is active
    now; every other render, whatever its baseline, leaves both as they are.
    A selection change stores the given selection and shows the button, a
    filter change and a submit touch neither.  In particular a second render
    as active right after a render as active resets nothing. *)
Theorem reset_on_activation_only (evs : list Event) :
  (∀ ev,
     let st := run evs in
     let st' := step st ev in
     match ev with
     | Render props _ =>
         if negb (lastActive evs) && truthy (isActive props)
         then newSelectedContactIds st'
              = closeFriendIds (contactListIds props) (usersById props)
              ∧ isSubmitShown st' = false
         else newSelectedContactIds st' = newSelectedContactIds st
              ∧ isSubmitShown st' = isSubmitShown st
     | SelectedIdsChange value =>
         newSelectedContactIds st' = value ∧ isSubmitShown st' = true
     | FilterChange _ | Submit =>
         newSelectedContactIds st' = newSelectedContactIds st
         ∧ isSubmitShown st' = isSubmitShown st
     end)
  ∧ (∀ props1 same1 props2 same2,
       let st1 := step (run evs) (Render (activated props1) same1) in
       let st2 := step st1 (Render (activated props2) same2) in
       newSelectedContactIds st2 = newSelectedContactIds st1
       ∧ isSubmitShown st2 = isSubmitShown st1).
Proof.
  split.
  - intros [props sameArray|text|value|]; cbv zeta; simpl; try (split; reflexivity).
    rewrite <- prevIsActive_run. apply render_selection.
  - intros props1 same1 props2 same2. cbv zeta. simpl.
    pose proof (render_selection (activated props2) same2
                  (render (activated props1) same1 (run evs))) as Hsecond.
    cbv zeta in Hsecond. rewrite prevIsActive_render in Hsecond. exact Hsecond.
Qed.

(** ** Committing *)

(** C8.  From any state, a selection change to [value] followed by a submit
    saves exactly [value], once, and then closes; the same holds when the
    component re-renders with unchanged props around the selection change. *)
Theorem change_then_submit_saves_selection (value : list string) :
  (∀ st, actions st [SelectedIdsChange value; Submit]
         = [SaveCloseFriends value; OnClose])
  ∧ (∀ st props sameBefore sameAfter,
       actions st [Render props sameBefore; SelectedIdsChange value;
                   Render props sameAfter; Submit]
       = [SaveCloseFriends value; OnClose]).
Proof.
  split; [reflexivity|].
  intros st props sameBefore sameAfter. cbn [actions emitted app step].
  unfold handleSubmit.
  pose proof (render_selection props sameAfter
                (handleSelectedContactIdsChange value (render props sameBefore st)))
    as Hrerender.
  cbv zeta in Hrerender.
  replace (prevIsActive (handleSelectedContactIdsChange value (render props sameBefore st)))
    with (isActive props) in Hrerender
    by (symmetry; apply (prevIsActive_render props sameBefore st)).
  destruct (truthy (isActive props)); simpl in Hrerender;
    destruct Hrerender as [-> _]; reflexivity.
Qed.

(** C9.  Setting the same filter text twice gives the same state and the
    same displayed ids as setting it once, and the displayed ids are a
    function of the baseline, the contact list, the acting user's id, the
    users and the filter text alone: the rest of the state plays no part. *)
Theorem displayedIds_pure (props : OwnProps) (text : string) (st st' : State) :
  setSearchQuery text (setSearchQuery text st) = setSearchQuery text st
  ∧ itemIds (view searchMatch props (setSearchQuery text (setSearchQuery text st)))
    = itemIds (view searchMatch props (setSearchQuery text st))
  ∧ itemIds (view searchMatch props (setSearchQuery text st))
    = itemIds (view searchMatch props (setSearchQuery text st'))
  ∧ itemIds (view searchMatch props (setSearchQuery text st))
    = displayedIds searchMatch
        (closeFriendIds (contactListIds props) (usersById props))
        (contactListIds props) (currentUserId props) text (usersById props).
Proof. repeat split. Qed.
(** ** Further properties of the displayed ids *)

Lemma filterUsersByName_filter (userIds : list string)
    (usersById : gmap string ApiUser) (query : string) :
  filterUsersByName searchMatch userIds usersById query
  = filter (λ id, passesFilter searchMatch usersById query id = true) userIds.
Proof.
  unfold filterUsersByName, passesFilter.
  destruct (String.eqb query ""); simpl; [|reflexivity].
  symmetry. apply filter_all. reflexivity.
Qed.

(** X14.  The baseline consists of exactly the contacts that have a user
    record flagged as close friend (a contact without a record is none); it
    keeps the order of the contact list, and is empty when there is no
    contact list. *)
Theorem closeFriendIds_members (contactListIds : option (list string))
    (usersById : gmap string ApiUser) :
  (∀ id, id ∈ closeFriendIds contactListIds usersById
         ↔ id ∈ default [] contactListIds
           ∧ ∃ user, usersById !! id = Some user ∧ isCloseFriend user = Some true)
  ∧ closeFriendIds contactListIds usersById `sublist_of` default [] contactListIds
  ∧ closeFriendIds None usersById = [].
Proof.
  split; [intros id; apply closeFriendIds_flagged|].
  split; [apply sublist_filter|reflexivity].
Qed.

(** X15.  Whatever the filter text, every displayed id is a contact and the
    displayed list is no longer than the contact list; with no contact list
    nothing is displayed. *)
Theorem displayedIds_within_contacts (contactListIds : option (list string))
    (usersById : gmap string ApiUser) (currentUserId searchQuery : string) :
  let displayed :=
    displayedIds searchMatch (closeFriendIds contactListIds usersById)
      contactListIds currentUserId searchQuery usersById in
  displayed ⊆ default [] contactListIds
  ∧ length displayed ≤ length (default [] contactListIds)
  ∧ displayedIds searchMatch (closeFriendIds None usersById) None currentUserId
      searchQuery usersById = [].
Proof.
  cbv zeta.
  assert (∀ id, id ∈ displayedIds searchMatch (closeFriendIds contactListIds usersById)
                       contactListIds currentUserId searchQuery usersById
                → id ∈ default [] contactListIds) as Hsubset.
  { intros id Hid. apply elem_of_displayedIds in Hid as [[Hfriend|[Hin _]] _];
      [|exact Hin].
    apply closeFriendIds_flagged in Hfriend as [Hin _]. exact Hin. }
  split; [exact Hsubset|]. split.
  - apply submseteq_length, NoDup_submseteq; [apply NoDup_uniqueFrom|exact Hsubset].
  - unfold displayedIds, filterUsersByName. simpl.
    destruct (String.eqb searchQuery ""); reflexivity.
Qed.

(** X16.  The acting user's own id is displayed exactly when it is a contact
    whose user record is flagged as close friend and it passes the name
    filter: the removal of the own id applies to the contacts appended after
    the baseline, not to the baseline. *)
Theorem own_id_displayed_iff_close_friend (contactListIds : option (list string))
    (usersById : gmap string ApiUser) (currentUserId searchQuery : string) :
  currentUserId
  ∈ displayedIds searchMatch (closeFriendIds contactListIds usersById)
      contactListIds currentUserId searchQuery usersById
  ↔ currentUserId ∈ default [] contactListIds
    ∧ (∃ user, usersById !! currentUserId = Some user
               ∧ isCloseFriend user = Some true)
    ∧ passesFilter searchMatch usersById searchQuery currentUserId = true.
Proof.
  rewrite elem_of_displayedIds, closeFriendIds_flagged. tauto.
Qed.

(** X17.  Entering a filter text only removes entries: the displayed ids are
    the ids displayed with no filter text that pass the filter, in the same
    order. *)
Theorem filter_text_only_removes (baseline : list string)
    (contactListIds : option (list string)) (currentUserId searchQuery : string)
    (usersById : gmap string ApiUser) :
  displayedIds searchMatch baseline contactListIds currentUserId searchQuery usersById
  = filter (λ id, passesFilter searchMatch usersById searchQuery id = true)
      (displayedIds searchMatch baseline contactListIds currentUserId "" usersById)
  ∧ displayedIds searchMatch baseline contactListIds currentUserId searchQuery usersById
    `sublist_of`
    displayedIds searchMatch baseline contactListIds currentUserId "" usersById.
Proof.
  assert (displayedIds searchMatch baseline contactListIds currentUserId searchQuery usersById
  = filter (λ id, passesFilter searchMatch usersById searchQuery id = true)
      (displayedIds searchMatch baseline contactListIds currentUserId "" usersById)) as Heq.
  { unfold displayedIds. rewrite filterUsersByName_filter.
    unfold unique. rewrite uniqueFrom_filter_commute. reflexivity. }
  split; [exact Heq|]. rewrite Heq. apply sublist_filter.
Qed.

End Picker.

(** ** Further properties of the transition system *)

Lemma lastFilterText_snoc (evs : list Event) (ev : Event) :
  lastFilterText (evs ++ [ev])
  = match ev with
    | FilterChange text => text
    | _ => lastFilterText evs
    end.
Proof. unfold lastFilterText. rewrite foldl_snoc. reflexivity. Qed.

Lemma searchQuery_render (props : OwnProps) (sameArray : bool) (st : State) :
  searchQuery (render props sameArray st) = searchQuery st.
Proof.
  unfold render, activationEffect.
  destruct (depsChanged props sameArray st); [|reflexivity].
  destruct (negb _ && _); reflexivity.
Qed.

(** X18.  After any history of events the filter text is the one entered
    latest (the empty text when none was entered): no render, not even one
    that activates the container and resets the selection, clears it. *)
Theorem filter_text_survives (evs : list Event) :
  searchQuery (run evs) = lastFilterText evs.
Proof.
  induction evs as [|ev evs IH] using rev_ind; [reflexivity|].
  rewrite run_snoc, lastFilterText_snoc.
  destruct ev; simpl; try assumption; [|reflexivity].
  rewrite searchQuery_render. exact IH.
Qed.

Lemma prevDeps_render (props : OwnProps) (sameArray : bool) (st : State) :
  prevDeps (render props sameArray st)
  = Some (isActive props, closeFriendIds (contactListIds props) (usersById props)).
Proof.
  unfold render. destruct (depsChanged props sameArray st) eqn:Hchanged; [reflexivity|].
  unfold depsChanged in Hchanged.
  destruct (prevDeps st) as [[wasActive ids]|]; [|discriminate].
  apply orb_false_iff in Hchanged as [Hchanged Hids].
  apply orb_false_iff in Hchanged as [Hactive _].
  apply negb_false_iff, bool_decide_eq_true in Hactive, Hids. congruence.
Qed.

(** X19.  Rendering again with the props of the previous render leaves the
    whole state as it is, whether or not the memoized baseline array is a new
    one. *)
Theorem rerender_same_props_is_noop (props : OwnProps) (sameBefore sameAfter : bool)
    (st : State) :
  render props sameAfter (render props sameBefore st) = render props sameBefore st.
Proof.
  pose proof (prevDeps_render props sameBefore st) as Hprev.
  destruct (render props sameBefore st) as [text shown selected deps].
  simpl in Hprev. subst deps.
  unfold render. destruct (depsChanged _ _ _); [|reflexivity].
  unfold activationEffect, prevIsActive. simpl.
  destruct (truthy (isActive props)); reflexivity.
Qed.

Lemma isSubmitShown_snoc (evs : list Event) (ev : Event) :
  isSubmitShown (run (evs ++ [ev]))
  = match ev with
    | Render _ _ => if activates evs ev then false else isSubmitShown (run evs)
    | SelectedIdsChange _ => true
    | _ => isSubmitShown (run evs)
    end.
Proof.
  rewrite run_snoc.
  destruct ev as [props sameArray|text|value|]; try reflexivity.
  pose proof (render_selection props sameArray (run evs)) as Hrender.
  cbv zeta in Hrender. rewrite prevIsActive_run in Hrender. simpl.
  destruct (negb (lastActive evs) && truthy (isActive props));
    destruct Hrender as [_ ->]; reflexivity.
Qed.

Lemma changedAndNotActivatedSince_snoc (evs : list Event) (ev : Event) :
  changedAndNotActivatedSince (evs ++ [ev])
  ↔ (∃ value, ev = SelectedIdsChange value)
    ∨ (activates evs ev = false ∧ changedAndNotActivatedSince evs).
Proof.
  split.
  - intros (before & value & after & Hsplit & Hquiet).
    destruct after as [|lastEv after _] using rev_ind.
    + left. exists value.
      apply app_inj_tail in Hsplit as [_ ->]. reflexivity.
    + right.
      assert (evs = before ++ SelectedIdsChange value :: after ∧ ev = lastEv)
        as [-> ->].
      { apply app_inj_tail. rewrite Hsplit, <- app_assoc. reflexivity. }
      split.
      * apply (Hquiet after lastEv []). reflexivity.
      * exists before, value, after. split; [reflexivity|].
        intros between ev rest ->. apply (Hquiet between ev (rest ++ [lastEv])).
        rewrite <- app_assoc. reflexivity.
  - intros [[value ->]|[Hev (before & value & after & -> & Hquiet)]].
    + exists evs, value, []. split; [reflexivity|].
      intros between ev rest Hnil. by destruct between.
    + exists before, value, (after ++ [ev]). split.
      { rewrite <- app_assoc. reflexivity. }
      intros between ev' rest Hsplit.
      destruct rest as [|lastEv rest _] using rev_ind.
      * apply app_inj_tail in Hsplit as [-> ->]. exact Hev.
      * rewrite app_comm_cons, app_assoc in Hsplit.
        apply app_inj_tail in Hsplit as [-> _]. apply (Hquiet between ev' rest).
        reflexivity.
Qed.

(** X20.  After any history of events the submit button is shown exactly
    when the history has a selection change after which no render took the
    container from inactive to active. *)
Theorem submit_shown_iff_edited (evs : list Event) :
  isSubmitShown (run evs) = true ↔ changedAndNotActivatedSince evs.
Proof.
  induction evs as [|ev evs IH] using rev_ind.
  - split; [discriminate|].
    intros (before & value & after & Hsplit & _). by destruct before.
  - rewrite isSubmitShown_snoc, changedAndNotActivatedSince_snoc, <- IH.
    destruct ev as [props sameArray|text|value|]; simpl.
    + destruct (negb (lastActive evs) && truthy (isActive props)).
      * split; [discriminate|]. intros [[? ?]|[? _]]; discriminate.
      * split; [by right|]. intros [[? ?]|[_ ?]]; [discriminate|assumption].
    + split; [by right|]. intros [[? ?]|[_ ?]]; [discriminate|assumption].
    + split; [|reflexivity]. intros _. left. by exists value.
    + split; [by right|]. intros [[? ?]|[_ ?]]; [discriminate|assumption].
Qed.

(** X21.  The actions of a history are one save directly followed by one
    close per submit, and nothing else: a history without submits neither
    saves nor closes. *)
Theorem actions_only_on_submit (evs : list Event) (st : State) :
  (∃ saved, actions st evs = saved ≫= (λ ids, [SaveCloseFriends ids; OnClose])
            ∧ length saved = submits evs)
  ∧ actions st (filter (λ ev, isSubmit ev = false) evs) = [].
Proof.
  split.
  - revert st. induction evs as [|ev evs IH]; intros st; [by exists []|].
    destruct (IH (step st ev)) as [saved [Hactions Hlength]].
    cbn [actions]. rewrite Hactions. unfold submits. rewrite filter_cons.
    destruct ev; simpl; try (exists saved; split; [reflexivity|exact Hlength]).
    exists (newSelectedContactIds st :: saved). split; [reflexivity|].
    simpl. f_equal. exact Hlength.
  - revert st. induction evs as [|ev evs IH]; intros st; [reflexivity|].
    rewrite filter_cons. destruct ev; simpl; apply IH.
Qed.

(** ** Concrete runs *)

(** C4, as stated, fails: a close friend whose name does not match the
    filter text is not displayed. *)
Lemma filtered_out_close_friend :
  let users : gmap string ApiUser :=
    {[ "1" := {| userName := "Alice"; isCloseFriend := Some true |} ]} in
  ¬ (closeFriendIds (Some ["1"]) users
     ⊆ displayedIds nameContains (closeFriendIds (Some ["1"]) users)
         (Some ["1"]) "me" "bob" users).
Proof.
  cbv zeta. intros Hsubset.
  assert ("1" ∈ @nil string) as Habsurd; [|by apply elem_of_nil in Habsurd].
  apply (Hsubset "1"). left.
Qed.

(** C6, as stated, fails: under a filter text that the one close friend does
    not match, the baseline does not come first in the displayed ids. *)
Lemma baseline_not_first_under_filter :
  let users : gmap string ApiUser :=
    {[ "1" := {| userName := "Alice"; isCloseFriend := Some true |};
       "2" := {| userName := "Bob"; isCloseFriend := None |} ]} in
  let baseline := closeFriendIds (Some ["2"; "1"]) users in
  let displayed :=
    displayedIds nameContains baseline (Some ["2"; "1"]) "me" "Bob" users in
  baseline = ["1"] ∧ displayed = ["2"] ∧ ¬ (baseline `prefix_of` displayed).
Proof.
  intros users baseline displayed.
  assert (baseline = ["1"]) as Hbaseline by (vm_compute; reflexivity).
  assert (displayed = ["2"]) as Hdisplayed by (vm_compute; reflexivity).
  split; [exact Hbaseline|]. split; [exact Hdisplayed|].
  rewrite Hbaseline, Hdisplayed. intros [rest Hrest]. discriminate Hrest.
Qed.

(** The acting user, a contact who is not a close friend, is not displayed. *)
Lemma displayedIds_members_witness :
  let users : gmap string ApiUser :=
    {[ "1" := {| userName := "Alice"; isCloseFriend := Some true |};
       "me" := {| userName := "Me"; isCloseFriend := None |} ]} in
  ("me" ∉ closeFriendIds (Some ["me"; "1"]) users)
  ∧ ("me" ∉ displayedIds nameContains (closeFriendIds (Some ["me"; "1"]) users)
              (Some ["me"; "1"]) "me" "" users).
Proof.
  cbv zeta.
  assert ("me" ∉ closeFriendIds (Some ["me"; "1"])
            ({[ "1" := {| userName := "Alice"; isCloseFriend := Some true |};
                "me" := {| userName := "Me"; isCloseFriend := None |} ]}
             : gmap string ApiUser)) as Hself.
  { intros Hin. vm_compute in Hin. inversion Hin as [|? ? ? Hnil]; inversion Hnil. }
  split; [exact Hself|].
  apply (displayedIds_members nameContains (Some ["me"; "1"]) _ "me" "").
  exact Hself.
Defined.

End CloseFriendsSpec.
